(** * result.hpp: a tagged Ok/Err result type with moved-from tracking

    A shallow embedding of the [result] namespace of result.hpp (the
    header with the full combinator set), of the demo built on it
    ([div_safe], [sqrt], [div_sqrt]) and of the test driver in main.cpp.

    Member functions of [Result<T, E>] mutate the object they are called
    on and may leave through [detail::panic]; they are embedded as
    computations in a state-and-outcome monad whose state is the object
    ([*this]), paired with the rest of the program state when the member
    function runs caller-supplied callables. *)

From Stdlib Require Import ZArith String Ascii List Bool Lia.
From ExtLib Require Import Structures.Monad.
Import ListNotations.
Import MonadNotation.

Local Open Scope string_scope.
Local Open Scope Z_scope.
Local Open Scope monad_scope.

Set Implicit Arguments.

(* ===================================================================== *)
(** ** The C++ constructs the header relies on *)
(* ===================================================================== *)

Module std.

(** [std::exception] carries no state of its own; [std::runtime_error]
    derives from it and adds the message given at construction. *)
Inductive exception : Type := exception_ctor.

Record runtime_error : Type := runtime_error_ctor' {
  base : exception;
  what : string
}.

Definition runtime_error_ctor (what_arg : string) : runtime_error :=
  {| base := exception_ctor; what := what_arg |}.

(** [std::reference_wrapper<A>]: a view of an object that stays where
    it is. *)
Record reference_wrapper (A : Type) : Type := ref { referent : A }.

(** [std::sprintf] restricted to what the header feeds it: ordinary
    characters, [%%] and [%s] with C-string arguments. A directive
    with no argument left, or any other directive, has no defined
    result ([None]); surplus arguments are ignored. *)
Fixpoint sprintf (msg : string) (args : list string) : option string :=
  match msg with
  | EmptyString => Some EmptyString
  | String "%" (String "s" rest) =>
      match args with
      | a :: args' => option_map (append a) (sprintf rest args')
      | [] => None
      end
  | String "%" (String "%" rest) => option_map (String "%") (sprintf rest args)
  | String "%" _ => None
  | String c rest => option_map (String c) (sprintf rest args)
  end.

End std.

(** How a call can end. *)
Inductive abnormal : Type :=
| escaped_noexcept (e : std.runtime_error)  (* an exception reached the
                                               boundary of a noexcept function *)
| assertion_failed (expr : string).         (* assert(expr) with expr false *)

Inductive outcome (A : Type) : Type :=
| Returned (a : A)                 (* normal return *)
| Thrown (e : std.runtime_error)   (* an exception is propagating *)
| Terminated (why : abnormal)      (* std::terminate / abort was called *)
| Undefined.                       (* behaviour the language leaves undefined *)

Arguments Returned {A} a.
Arguments Thrown {A} e.
Arguments Terminated {A} why.
Arguments Undefined {A}.

(** A computation over a mutable state [St]. The state reached is kept
    in every case: an object modified before a throw stays modified. *)
Definition M (St A : Type) : Type := St -> outcome A * St.

#[global] Instance Monad_M (St : Type) : Monad (M St) := {
  ret := fun A (a : A) (s : St) => (Returned a, s);
  bind := fun A B (c : M St A) (k : A -> M St B) (s : St) =>
    match c s with
    | (Returned a, s') => k a s'
    | (Thrown e, s') => (Thrown e, s')
    | (Terminated why, s') => (Terminated why, s')
    | (Undefined, s') => (Undefined, s')
    end
}.

Definition get {St : Type} : M St St := fun s => (Returned s, s).
Definition put {St : Type} (s : St) : M St unit := fun _ => (Returned tt, s).
Definition throw {St A : Type} (e : std.runtime_error) : M St A :=
  fun s => (Thrown e, s).
Definition terminate {St A : Type} (why : abnormal) : M St A :=
  fun s => (Terminated why, s).
Definition undefined {St A : Type} : M St A := fun s => (Undefined, s).

(** A function declared [noexcept]: an exception that would leave its
    body calls [std::terminate] instead. *)
Definition noexcept {St A : Type} (body : M St A) : M St A :=
  fun s =>
    match body s with
    | (Thrown e, s') => (Terminated (escaped_noexcept e), s')
    | r => r
    end.

(** [assert(expr)] from <cassert>. *)
Definition assert {St : Type} (cond : bool) (expr : string) : M St unit :=
  if cond then ret tt else terminate (assertion_failed expr).

(** Running a member function on [*this] while the rest of the program
    state [W] is in scope, and running caller code that cannot reach
    [*this]. *)
Definition on_self {S W A : Type} (m : M S A) : M (S * W) A :=
  fun sw => let '(o, s') := m (fst sw) in (o, (s', snd sw)).

Definition on_env {S W A : Type} (m : M W A) : M (S * W) A :=
  fun sw => let '(o, w') := m (snd sw) in (o, (fst sw, w')).

(** A block-scoped object: created with [init], visible to [body] as its
    [*this], destroyed when the block is left. *)
Definition with_local {S W A : Type} (init : S) (body : M (S * W) A) : M W A :=
  fun w => let '(o, sw) := body (init, w) in (o, snd sw).

(** A temporary used as the object of a single call. *)
Definition on_temporary {S W A : Type} (init : S) (m : M S A) : M W A :=
  with_local init (on_self m).

(** Types with a default constructor ([T()]). *)
Class DefaultConstructible (T : Type) : Type := default_ctor : T.

#[global] Instance DefaultConstructible_int : DefaultConstructible Z := 0.

(** Types that can initialise a new object from [std::move(x)]:
    [moved_from x] is what the source object [x] is left holding. For a
    type without a move constructor of its own the source is copied and
    keeps its value. *)
Class MoveConstructible (T : Type) : Type := moved_from : T -> T.

(** Scalars, empty structs, reference wrappers and the standard
    exception classes are copied when moved. *)
#[global] Instance MoveConstructible_int : MoveConstructible Z :=
  fun x => x.

#[global] Instance MoveConstructible_exception : MoveConstructible std.exception :=
  fun x => x.

#[global] Instance MoveConstructible_runtime_error
  : MoveConstructible std.runtime_error :=
  fun x => x.

#[global] Instance MoveConstructible_reference_wrapper (A : Type)
  : MoveConstructible (std.reference_wrapper A) :=
  fun x => x.

(* ===================================================================== *)
(** ** namespace result *)
(* ===================================================================== *)

Module variants.
Inductive NullOk : Type := NullOk_ctor.
Inductive NullErr : Type := NullErr_ctor.
End variants.

#[global] Instance MoveConstructible_NullOk : MoveConstructible variants.NullOk :=
  fun x => x.

#[global] Instance MoveConstructible_NullErr : MoveConstructible variants.NullErr :=
  fun x => x.

Module detail.

(** [panic] in the build without NO_EXCEPTIONS: format the message,
    wrap it in a [std::runtime_error] and throw it, all inside a
    function declared [noexcept]. *)
Definition panic {St A : Type} (msg : string) (args : list string) : M St A :=
  noexcept
    (match std.sprintf msg args with
     | Some buf => throw (std.runtime_error_ctor buf)
     | None => undefined
     end).

(** The union used for data storage. *)
Inductive OkOrErr (T E : Type) : Type :=
| uninit
| ok (t : T)
| err (e : E).

Arguments uninit {T E}.
Arguments ok {T E} t.
Arguments err {T E} e.

(** Reading a member of the union that is not the active one is
    undefined. *)
Definition read_ok {St T E : Type} (d : OkOrErr T E) : M St T :=
  match d with ok t => ret t | _ => undefined end.

Definition read_err {St T E : Type} (d : OkOrErr T E) : M St E :=
  match d with err e => ret e | _ => undefined end.

(** [enum class ResultState : char]. *)
Inductive ResultState : Type := Ok | Err | Moved | MovedOk | MovedErr.

Definition code (s : ResultState) : Z :=
  match s with
  | Ok => 0x1
  | Err => 0x2
  | Moved => 0x4
  | MovedOk => 0x5
  | MovedErr => 0x6
  end.

Definition eqb (a b : ResultState) : bool := code a =? code b.

End detail.

Abbreviation State := detail.ResultState.
Infix "==" := detail.eqb (at level 70, no associativity).

Record Result (T E : Type) : Type := Result_members {
  data_ : detail.OkOrErr T E;   (* the data *)
  state_ : State                (* and the state of the data *)
}.

Arguments Result_members {T E} data_ state_.

(** The private tagged constructors. *)
Definition Result_OkTag {T E : Type} (value : T) : Result T E :=
  {| data_ := detail.ok value; state_ := detail.Ok |}.

Definition Result_ErrTag {T E : Type} (value : E) : Result T E :=
  {| data_ := detail.err value; state_ := detail.Err |}.

(** Constructs an Ok Result. *)
Definition ok {T : Type} (value : T) : Result T variants.NullErr :=
  Result_OkTag value.

(** Constructs an Err Result. *)
Definition err {E : Type} (value : E) : Result variants.NullOk E :=
  Result_ErrTag value.

(** [state_ = s;] *)
Definition set_state_ {T E : Type} (s : State) : M (Result T E) unit :=
  self <- get ;;
  put {| data_ := data_ self; state_ := s |}.

Section Result_methods.

Context {T E : Type} {MT : MoveConstructible T} {ME : MoveConstructible E}.

#[local] Abbreviation Self := (Result T E).

(** [std::move(data_.ok)] initialising the value handed out: the value
    leaves, and [data_.ok] stays the active member, holding what the
    move left behind. Likewise for [data_.err]. *)
Definition move_data_ok : M Self T :=
  self <- get ;;
  t <- detail.read_ok (data_ self) ;;
  put {| data_ := detail.ok (moved_from t); state_ := state_ self |} ;;
  ret t.

Definition move_data_err : M Self E :=
  self <- get ;;
  e <- detail.read_err (data_ self) ;;
  put {| data_ := detail.err (moved_from e); state_ := state_ self |} ;;
  ret e.

(** Is the value Ok? *)
Definition is_ok (self : Self) : bool := detail.Ok == state_ self.

(** Is the value Err? *)
Definition is_err (self : Self) : bool := detail.Err == state_ self.

Definition operator_bool (self : Self) : bool := detail.Ok == state_ self.

(** Converts to a result referencing this, without moving the values.
    The two overloads (const and non-const) have the same body. *)
Definition as_ref
  : M Self (Result (std.reference_wrapper T) (std.reference_wrapper E)) :=
  self <- get ;;
  if detail.Ok == state_ self then
    t <- detail.read_ok (data_ self) ;;
    ret (Result_OkTag (std.ref t))
  else if detail.Err == state_ self then
    e <- detail.read_err (data_ self) ;;
    ret (Result_ErrTag (std.ref e))
  else
    detail.panic "Panic: Called as_ref() on a moved result!" [].

(** *Moves* the value and returns it, if it is Ok, or throws / panics. *)
Definition unwrap : M Self T :=
  self <- get ;;
  if detail.Ok == state_ self then
    set_state_ detail.MovedOk ;;
    move_data_ok
  else
    detail.panic "Panic: Called unwrap() on %s result!"
      [if detail.Err == state_ self then "an erroneous" else "a moved"].

(** *Moves* the value and returns it, if it is Ok, or returns optb.
    ([optb] is moved from the caller's object, which is not tracked.) *)
Definition unwrap_or (optb : T) : M Self T :=
  self <- get ;;
  if detail.Ok == state_ self then
    set_state_ detail.MovedOk ;;
    move_data_ok
  else
    ret optb.

(** *Moves* the value and returns it, if it is Ok, or returns the value
    of op(). *)
Definition unwrap_or_else {W : Type} (op : M W T) : M (Self * W) T :=
  self <- on_self get ;;
  if detail.Ok == state_ self then
    on_self (set_state_ detail.MovedOk) ;;
    on_self move_data_ok
  else
    on_env op.

(** *Moves* the value and returns it, if it is Ok, or returns the
    default value of T. *)
Definition unwrap_or_default `{DefaultConstructible T} : M Self T :=
  self <- get ;;
  if detail.Ok == state_ self then
    set_state_ detail.MovedOk ;;
    move_data_ok
  else
    ret default_ctor.

(** Unwraps the result if Ok, or panics / throws an error with the
    contents of msg. *)
Definition expect (msg : string) : M Self T :=
  self <- get ;;
  if detail.Ok == state_ self then
    set_state_ detail.MovedOk ;;
    move_data_ok
  else
    detail.panic msg [].

(** *Moves* the value and returns it, if it is Err, or throws / panics. *)
Definition unwrap_err : M Self E :=
  self <- get ;;
  if detail.Err == state_ self then
    set_state_ detail.MovedErr ;;
    move_data_err
  else
    detail.panic "Panic: Called unwrap_err() on %s result!"
      [if detail.Ok == state_ self then "an OK" else "a moved"].

(** Calls either if_ok or if_err, with the unwrapped value, depending
    on the state of the result. *)
Definition match_ {W R : Type} (if_ok : T -> M W R) (if_err : E -> M W R)
  : M (Self * W) R :=
  self <- on_self get ;;
  if detail.Ok == state_ self then
    t <- on_self unwrap ;;
    on_env (if_ok t)
  else
    e <- on_self unwrap_err ;;
    on_env (if_err e).

(** [map] and [map_err]. *)
Definition map {W U : Type} (project : T -> M W U) : M (Self * W) (Result U E) :=
  self <- on_self get ;;
  if detail.Ok == state_ self then
    t <- on_self unwrap ;;
    u <- on_env (project t) ;;
    ret (Result_OkTag u)
  else
    e <- on_self unwrap_err ;;
    ret (Result_ErrTag e).

Definition map_err {W F : Type} (project : E -> M W F) : M (Self * W) (Result T F) :=
  self <- on_self get ;;
  if detail.Err == state_ self then
    e <- on_self unwrap_err ;;
    f <- on_env (project e) ;;
    ret (Result_ErrTag f)
  else
    t <- on_self unwrap ;;
    ret (Result_OkTag t).

End Result_methods.

(* --------------------------------------------------------------------- *)
(** *** Constructors taking another Result

    Each runs with the source object ([result]) as its state and returns
    the object under construction. [state_(result.state_)] is evaluated
    first, then the body extracts from the source. The copy constructor
    is left out: it calls the non-const [unwrap] on a const reference and
    cannot be instantiated. *)
(* --------------------------------------------------------------------- *)

Section Result_constructors.

Context {T E : Type} {MT : MoveConstructible T} {ME : MoveConstructible E}.

(** Move constructor. *)
Definition Result_move : M (Result T E) (Result T E) :=
  result <- get ;;
  let st := state_ result in
  if detail.Ok == st then
    t <- unwrap ;;
    ret {| data_ := detail.ok t; state_ := st |}
  else
    e <- unwrap_err ;;
    ret {| data_ := detail.err e; state_ := st |}.

(** [Result(Result<U, variants::NullErr>&& result)]; [conv] is the
    conversion from [U] to [T] used to initialise [data_.ok]. *)
Definition Result_from_NullErr {U : Type} {MU : MoveConstructible U}
    (conv : U -> T)
  : M (Result U variants.NullErr) (Result T E) :=
  result <- get ;;
  let st := state_ result in
  u <- unwrap ;;
  ret {| data_ := detail.ok (conv u); state_ := st |}.

(** [Result(Result<variants::NullOk, F>&& result)]; [conv] is the
    conversion from [F] to [E] used to initialise [data_.err]. *)
Definition Result_from_NullOk {F : Type} {MF : MoveConstructible F}
    (conv : F -> E)
  : M (Result variants.NullOk F) (Result T E) :=
  result <- get ;;
  let st := state_ result in
  f <- unwrap_err ;;
  ret {| data_ := detail.err (conv f); state_ := st |}.

End Result_constructors.

(** The conversion between equal types. *)
Definition same {A : Type} (a : A) : A := a.

(* --------------------------------------------------------------------- *)
(** *** Combinators taking a second result

    For [all] and [any] the state is [*this] paired with the argument
    ([res], passed by rvalue reference and moved from when returned).
    [all_then] and [any_else] return [op()] through the return type
    [Result<result_of<F()>, E>]; [lift] is that conversion. *)
(* --------------------------------------------------------------------- *)

Section Result_combinators.

Context {T E : Type} {MT : MoveConstructible T} {ME : MoveConstructible E}.

(** If the result is Ok, returns res. *)
Definition all {U : Type} {MU : MoveConstructible U}
  : M (Result T E * Result U E) (Result U E) :=
  self <- on_self get ;;
  if detail.Ok == state_ self then
    on_env Result_move
  else
    e <- on_self unwrap_err ;;
    ret (Result_ErrTag e).

(** If the result is Ok, returns the value of op(). *)
Definition all_then {W X : Type} (lift : X -> Result X E) (op : M W X)
  : M (Result T E * W) (Result X E) :=
  self <- on_self get ;;
  if detail.Ok == state_ self then
    x <- on_env op ;;
    ret (lift x)
  else
    e <- on_self unwrap_err ;;
    ret (Result_ErrTag e).

Definition any {F : Type} {MF : MoveConstructible F}
  : M (Result T E * Result T F) (Result T F) :=
  self <- on_self get ;;
  if detail.Err == state_ self then
    on_env Result_move
  else
    t <- on_self unwrap ;;
    ret (Result_OkTag t).

Definition any_else {W X : Type} (lift : X -> Result T X) (op : M W X)
  : M (Result T E * W) (Result T X) :=
  self <- on_self get ;;
  if detail.Err == state_ self then
    x <- on_env op ;;
    ret (lift x)
  else
    t <- on_self unwrap ;;
    ret (Result_OkTag t).

End Result_combinators.

(* --------------------------------------------------------------------- *)
(** *** The TRY macro

    [TRY(expr, ok); rest] inside a function returning [Result<R, E>]:
    [result] is a block-scoped reference to the value of [expr]; the
    first branch assigns to [ok] and falls through to [rest], the second
    leaves the enclosing function with [err(result.unwrap_err())]
    converted to its return type. TRY_RESULT has the same body. *)
(* --------------------------------------------------------------------- *)

Definition TRY {W T F R E : Type}
    {MT : MoveConstructible T} {MF : MoveConstructible F} (conv : F -> E)
    (expr : M W (Result T F)) (rest : T -> M W (Result R E))
  : M W (Result R E) :=
  value <- expr ;;
  with_local value
    (result <- on_self get ;;
     if is_ok result then
       ok <- on_self unwrap ;;
       on_env (rest ok)
     else
       e <- on_self unwrap_err ;;
       on_temporary (err e) (Result_from_NullOk conv)).

Definition TRY_RESULT {W T F R E : Type}
    {MT : MoveConstructible T} {MF : MoveConstructible F} :=
  @TRY W T F R E MT MF.

(* ===================================================================== *)
(** ** The demo: division followed by a square root *)
(* ===================================================================== *)

(** [int] is 32 bits wide. *)
Definition INT_MIN : Z := - 2 ^ 31.
Definition INT_MAX : Z := 2 ^ 31 - 1.

(** [a / b] on [int]: truncation towards zero, undefined when the
    quotient is not representable. The caller has excluded [b == 0]. *)
Definition int_div {St : Type} (a b : Z) : M St Z :=
  if (a =? INT_MIN) && (b =? -1) then undefined else ret (Z.quot a b).

(** The calls made so far, oldest first. The log is not in the source:
    it is kept so that "this function was not called" can be stated. *)
Inductive call : Type :=
| call_div_safe (a b : Z)
| call_sqrt (x : Z).

Definition entered (c : call) : M (list call) unit :=
  fun log => (Returned tt, (log ++ [c])%list).

(** [int(std::sqrt(x))]: for [x >= 0] the truncated double root of an
    [int] is its integer square root; for [x < 0] the root is a NaN and
    its conversion to [int] is undefined. *)
Definition sqrt (x : Z) : M (list call) Z :=
  entered (call_sqrt x) ;;
  if x <? 0 then undefined else ret (Z.sqrt x).

Definition div_safe (a b : Z) : M (list call) (Result Z std.runtime_error) :=
  entered (call_div_safe a b) ;;
  if negb (b =? 0) then
    q <- int_div a b ;;
    on_temporary (ok q) (Result_from_NullErr same)
  else
    on_temporary
      (err (std.runtime_error_ctor "Division by zero is undefined!"))
      (Result_from_NullOk same).

(** [div_sqrt] returns [Result<int, std::exception>]: the error of
    [div_safe] is converted to its base class on the way out. *)
Definition div_sqrt (a b : Z) : M (list call) (Result Z std.exception) :=
  TRY std.base (div_safe a b) (fun value =>
    root <- sqrt value ;;
    on_temporary (ok root) (Result_from_NullErr same)).

(* ===================================================================== *)
(** ** The test driver (main.cpp) *)
(* ===================================================================== *)

Inductive unit_ : Type := unit_ctor.

#[global] Instance MoveConstructible_unit_ : MoveConstructible unit_ :=
  fun x => x.

Definition test_ok : M unit (Result Z unit_) :=
  on_temporary (ok 10) (Result_from_NullErr same).

Definition test_err : M unit (Result unit_ Z) :=
  on_temporary (err 10) (Result_from_NullOk same).

Definition test_is_ok_err : M unit unit :=
  assert (is_ok (ok 10)) "ok(10).is_ok()" ;;
  assert (negb (is_err (ok 10))) "!ok(10).is_err()" ;;
  assert (is_err (err 10)) "err(10).is_err()" ;;
  assert (negb (is_ok (err 10))) "!err(10).is_ok()".

Definition test_as_ref : M unit unit :=
  init <- on_temporary (ok 10) (Result_from_NullErr same) ;;
  with_local (init : Result Z Z)
    (view <- on_self as_ref ;;
     ok_val <- on_temporary view unwrap ;;
     assert (std.referent ok_val =? 10) "ok_val == 10").

Definition test_match : M unit unit :=
  init <- on_temporary (err 10) (Result_from_NullOk same) ;;
  with_local (init : Result Z Z)
    (match_
       (fun x : Z => assert false "false")
       (fun e : Z => assert (e =? 10) "e == 10")).

Definition square (x : Z) : M unit Z := ret (x * x).

Definition test_map : M unit unit :=
  mapped <- with_local (ok 10) (map square) ;;
  v <- on_temporary mapped unwrap ;;
  assert (v =? 100) "ok(10).map(square).unwrap() == 100" ;;
  mapped' <- with_local (err 10) (map_err square) ;;
  e <- on_temporary mapped' unwrap_err ;;
  assert (e =? 100) "err(10).map_err(square).unwrap_err() == 100".

(* --------------------------------------------------------------------- *)
(** *** Comparing two results

    The class declares no comparison operator. [a == b] and [a != b] on
    two results are nevertheless well formed: each operand is converted
    through the non-explicit [operator bool], promoted to [int], and
    the built-in operator is applied. The two operands need not have
    the same type. *)
(* --------------------------------------------------------------------- *)

(** Integral promotion of a [bool]. *)
Definition promote (b : bool) : Z := if b then 1 else 0.

Definition builtin_eq {T E T' E' : Type}
    (lhs : Result T E) (rhs : Result T' E') : bool :=
  promote (operator_bool lhs) =? promote (operator_bool rhs).

Definition builtin_ne {T E T' E' : Type}
    (lhs : Result T E) (rhs : Result T' E') : bool :=
  negb (promote (operator_bool lhs) =? promote (operator_bool rhs)).

(* ===================================================================== *)
(** ** The state machine of a Result object *)
(* ===================================================================== *)

(** The moved-from states. [Moved] is declared but never assigned. *)
Definition consumed (s : State) : bool :=
  match s with
  | detail.Ok | detail.Err => false
  | detail.Moved | detail.MovedOk | detail.MovedErr => true
  end.

(** The state changes a single operation may make. *)
Inductive transition : State -> State -> Prop :=
| stay s : transition s s
| consume_ok : transition detail.Ok detail.MovedOk
| consume_err : transition detail.Err detail.MovedErr.

(** The union member a state stands for is the active one. *)
Definition well_formed {T E : Type} (r : Result T E) : Prop :=
  match state_ r, data_ r with
  | (detail.Ok | detail.MovedOk), detail.ok _ => True
  | (detail.Err | detail.MovedErr), detail.err _ => True
  | _, _ => False
  end.

(** The storage once its active member has been moved from. *)
Definition moved_member {T E : Type}
    {MT : MoveConstructible T} {ME : MoveConstructible E}
    (d : detail.OkOrErr T E) : detail.OkOrErr T E :=
  match d with
  | detail.uninit => detail.uninit
  | detail.ok t => detail.ok (moved_from t)
  | detail.err e => detail.err (moved_from e)
  end.

(** A call left through [detail::panic]. *)
Definition panicked {A : Type} (o : outcome A) : bool :=
  match o with
  | Terminated (escaped_noexcept _) => true
  | _ => false
  end.

(** [step r r']: some operation of the class takes the object from [r]
    to [r']. One constructor per member function, for the object it is
    called on, and one per way of being handed to another result (as the
    source of a constructor, as the argument of [all] or [any]). *)
Inductive step :
  forall {T E : Type} {MT : MoveConstructible T} {ME : MoveConstructible E},
    Result T E -> Result T E -> Prop :=
| step_query T E MT ME (r : Result T E) :
    @step T E MT ME r r                (* is_ok, is_err, operator bool *)
| step_as_ref T E MT ME (r : Result T E) :
    @step T E MT ME r (snd (as_ref r))
| step_unwrap T E MT ME (r : Result T E) :
    @step T E MT ME r (snd (unwrap r))
| step_unwrap_or T E MT ME (r : Result T E) (optb : T) :
    @step T E MT ME r (snd (unwrap_or optb r))
| step_unwrap_or_else T E MT ME W (r : Result T E) (op : M W T) (w : W) :
    @step T E MT ME r (fst (snd (unwrap_or_else op (r, w))))
| step_unwrap_or_default T E MT ME (D : DefaultConstructible T) (r : Result T E) :
    @step T E MT ME r (snd (unwrap_or_default r))
| step_expect T E MT ME (r : Result T E) (msg : string) :
    @step T E MT ME r (snd (expect msg r))
| step_unwrap_err T E MT ME (r : Result T E) :
    @step T E MT ME r (snd (unwrap_err r))
| step_all T E MT ME U (MU : MoveConstructible U)
    (r : Result T E) (res : Result U E) :
    @step T E MT ME r (fst (snd (all (r, res))))
| step_all_argument T E MT ME U (MU : MoveConstructible U)
    (self : Result U E) (r : Result T E) :
    @step T E MT ME r (snd (snd (all (self, r))))
| step_all_then T E MT ME W X (r : Result T E) lift (op : M W X) (w : W) :
    @step T E MT ME r (fst (snd (all_then lift op (r, w))))
| step_any T E MT ME F (MF : MoveConstructible F)
    (r : Result T E) (res : Result T F) :
    @step T E MT ME r (fst (snd (any (r, res))))
| step_any_argument T E MT ME F (MF : MoveConstructible F)
    (self : Result T F) (r : Result T E) :
    @step T E MT ME r (snd (snd (any (self, r))))
| step_any_else T E MT ME W X (r : Result T E) lift (op : M W X) (w : W) :
    @step T E MT ME r (fst (snd (any_else lift op (r, w))))
| step_match T E MT ME W R (r : Result T E)
    (if_ok : T -> M W R) (if_err : E -> M W R) (w : W) :
    @step T E MT ME r (fst (snd (match_ if_ok if_err (r, w))))
| step_map T E MT ME W U (r : Result T E) (project : T -> M W U) (w : W) :
    @step T E MT ME r (fst (snd (map project (r, w))))
| step_map_err T E MT ME W F (r : Result T E) (project : E -> M W F) (w : W) :
    @step T E MT ME r (fst (snd (map_err project (r, w))))
| step_move T E MT ME (r : Result T E) :
    @step T E MT ME r (snd (Result_move r))
| step_from_NullErr U T E MU MN (conv : U -> T)
    (r : Result U variants.NullErr) :
    @step U variants.NullErr MU MN r
      (snd (Result_from_NullErr (T := T) (E := E) conv r))
| step_from_NullOk F T E MN MF (conv : F -> E)
    (r : Result variants.NullOk F) :
    @step variants.NullOk F MN MF r
      (snd (Result_from_NullOk (T := T) (E := E) conv r)).

(** Any number of operations, one after the other. *)
Inductive steps {T E : Type}
    {MT : MoveConstructible T} {ME : MoveConstructible E}
  : Result T E -> Result T E -> Prop :=
| steps_done r : steps r r
| steps_more r r' r'' : step r r' -> steps r' r'' -> steps r r''.

(** What a result holds, when it holds something. *)
Definition holds_ok {T E : Type} (r : Result T E) (v : T) : Prop :=
  state_ r = detail.Ok /\ data_ r = detail.ok v.

Definition holds_err {T E : Type} (r : Result T E) (e : E) : Prop :=
  state_ r = detail.Err /\ data_ r = detail.err e.

(** A result that has not been consumed: it holds a value on one side. *)
Definition live {T E : Type} (r : Result T E) : Prop :=
  (exists v, holds_ok r v) \/ (exists e, holds_err r e).

(** The object a successful extraction of [v] (of [e]) leaves behind. *)
Definition moved_ok {T E : Type} {MT : MoveConstructible T} (v : T)
  : Result T E :=
  {| data_ := detail.ok (moved_from v); state_ := detail.MovedOk |}.

Definition moved_err {T E : Type} {ME : MoveConstructible E} (e : E)
  : Result T E :=
  {| data_ := detail.err (moved_from e); state_ := detail.MovedErr |}.

(** The outcome of [detail::panic] once the message is formatted. *)
Definition panic_with {A : Type} (message : string) : outcome A :=
  Terminated (escaped_noexcept (std.runtime_error_ctor message)).

(* ===================================================================== *)
(** ** The rest of the class *)
(* ===================================================================== *)

(** [~Result()]: destroys [data_.ok] when the state is Ok or MovedOk and
    [data_.err] in every other state. Destroying a member that is not
    the active one is undefined. *)
Definition Result_dtor {T E : Type} : M (Result T E) unit :=
  self <- get ;;
  if (detail.Ok == state_ self) || (detail.MovedOk == state_ self) then
    _ <- detail.read_ok (data_ self) ;;
    ret tt
  else
    _ <- detail.read_err (data_ self) ;;
    ret tt.

(** The variant of the header that checks for invalid sources in its
    constructors (RESULT_NO_INVALID_CHECKS not defined, i.e. a build
    without NDEBUG). [unwrap], [unwrap_err], [is_ok], [is_err] and
    [as_ref] are as above; the constructors and [match] differ. Its
    copy constructor is left out for the same reason as above. *)
Module with_invalid_checks.

Section Constructors.

Context {T E : Type} {MT : MoveConstructible T} {ME : MoveConstructible E}.

(** Move constructor. *)
Definition Result_move : M (Result T E) (Result T E) :=
  result <- get ;;
  let st := state_ result in
  if detail.Ok == st then
    t <- unwrap ;;
    ret {| data_ := detail.ok t; state_ := st |}
  else if detail.Err == st then
    e <- unwrap_err ;;
    ret {| data_ := detail.err e; state_ := st |}
  else
    detail.panic "Panic: Called Result(Result&&) with a moved result!" [].

(** [Result(Result<U, variants::NullErr>&& result)]. *)
Definition Result_from_NullErr {U : Type} {MU : MoveConstructible U}
    (conv : U -> T)
  : M (Result U variants.NullErr) (Result T E) :=
  result <- get ;;
  let st := state_ result in
  if detail.Ok == st then
    u <- unwrap ;;
    ret {| data_ := detail.ok (conv u); state_ := st |}
  else
    detail.panic
      "Panic: Called Result(Result<U, variants::NullErr>&&) with %s result!"
      [if detail.Err == st then "an erroneous" else "a moved"].

(** [Result(Result<variants::NullOk, F>&& result)]. *)
Definition Result_from_NullOk {F : Type} {MF : MoveConstructible F}
    (conv : F -> E)
  : M (Result variants.NullOk F) (Result T E) :=
  result <- get ;;
  let st := state_ result in
  if detail.Err == st then
    f <- unwrap_err ;;
    ret {| data_ := detail.err (conv f); state_ := st |}
  else
    detail.panic
      "Panic: Called Result(Result<variants::NullOk, F>&&) with %s result!"
      [if detail.Err == st then "an erroneous" else "a moved"].

(** Calls either if_ok or if_err, depending on the state of the result;
    what the branch returns is dropped. *)
Definition match_ {W R R' : Type} (if_ok : T -> M W R) (if_err : E -> M W R')
  : M (Result T E * W) unit :=
  self <- on_self get ;;
  if detail.Ok == state_ self then
    t <- on_self unwrap ;;
    on_env (if_ok t) ;;
    ret tt
  else
    e <- on_self unwrap_err ;;
    on_env (if_err e) ;;
    ret tt.

End Constructors.

End with_invalid_checks.

(* --------------------------------------------------------------------- *)
(** *** The demo's [main]

    What is written to [std::cout], in order. [main] is taken from the
    point where [std::cin >> a >> b] has delivered the two values. *)
(* --------------------------------------------------------------------- *)




Module demo.


End demo.

(* ===================================================================== *)
(** ** Properties *)
(* ===================================================================== *)

(** *** State comparison *)

Lemma eqb_eq (a b : State) : (a == b) = true <-> a = b.
Proof. destruct a, b; cbn; split; intro H; try reflexivity; discriminate H. Qed.

Lemma is_ok_state {T E : Type} (r : Result T E) :
  is_ok r = true <-> state_ r = detail.Ok.
Proof.
  unfold is_ok. rewrite eqb_eq. split; intro H; symmetry; exact H.
Qed.

Lemma is_err_state {T E : Type} (r : Result T E) :
  is_err r = true <-> state_ r = detail.Err.
Proof.
  unfold is_err. rewrite eqb_eq. split; intro H; symmetry; exact H.
Qed.

Lemma consumed_not_ok (s : State) : consumed s = true -> s <> detail.Ok.
Proof. destruct s; cbn; intros H H'; discriminate. Qed.

(** *** One operation *)

(** Case analysis on an innermost scrutinee the goal still matches on. *)
Ltac split_match :=
  match goal with
  | |- context [match ?x with _ => _ end] =>
      lazymatch x with
      | context [match _ with _ => _ end] => fail
      | _ => destruct x eqn:?
      end
  end.

Ltac unfold_methods :=
  cbv beta iota delta
    [as_ref unwrap unwrap_or unwrap_or_else unwrap_or_default expect
     unwrap_err match_ map map_err all all_then any any_else
     Result_move Result_from_NullErr Result_from_NullOk set_state_
     move_data_ok move_data_err
     detail.read_ok detail.read_err detail.panic noexcept throw undefined
     terminate get put on_self on_env with_local on_temporary
     bind ret Monad_M fst snd state_ data_].

Ltac run_method :=
  unfold_methods; cbn; repeat (split_match; unfold_methods; cbn).

Create HintDb result.
#[local] Hint Constructors transition : result.

(** Every operation changes the state by one of the three allowed
    transitions, and leaves the storage as it was or with its active
    member moved from. *)
Lemma step_transition {T E : Type}
    {MT : MoveConstructible T} {ME : MoveConstructible E}
    (r r' : Result T E) :
  step r r' ->
  transition (state_ r) (state_ r') /\
  (data_ r' = data_ r \/ data_ r' = moved_member (data_ r)).
Proof.
  intros H.
  destruct H; destruct r as [d []]; run_method; auto with result.
Qed.

Lemma transition_consumed (s s' : State) :
  transition s s' -> consumed s = true -> s' = s.
Proof. intros H; destruct H; cbn; intros C; try reflexivity; discriminate C. Qed.

Lemma steps_consumed {T E : Type}
    {MT : MoveConstructible T} {ME : MoveConstructible E}
    (r r' : Result T E) :
  steps r r' -> consumed (state_ r) = true -> state_ r' = state_ r.
Proof.
  induction 1 as [r | r r' r'' Hstep _ IH]; intros C.
  - reflexivity.
  - apply step_transition in Hstep as [Htr _].
    pose proof (transition_consumed Htr C) as Heq.
    rewrite IH by (rewrite Heq; exact C).
    exact Heq.
Qed.

(** The active member never changes sides. *)
Lemma step_well_formed {T E : Type}
    {MT : MoveConstructible T} {ME : MoveConstructible E}
    (r r' : Result T E) :
  step r r' -> well_formed r -> well_formed r'.
Proof.
  intros H W. apply step_transition in H as [Htr Hd].
  unfold well_formed in *.
  destruct Hd as [-> | ->]; destruct Htr; destruct (data_ r); cbn; auto.
Qed.

(** *** Construction and extraction *)

(** C1. For every value [v], [ok(v).is_ok()] is true and, once [ok(v)]
    has been converted to a fully typed [Result<T, E>], [unwrap()]
    returns [v]. For every [e], [err(e).is_err()] is true and
    [unwrap_err()] returns [e], on [err(e)] itself and on its conversion
    to [Result<T, E>]. *)
Theorem ok_err_construct_then_unwrap
    (T E : Type) {MT : MoveConstructible T} {ME : MoveConstructible E}
    (v : T) (e : E) :
  is_ok (ok v) = true /\
  Result_from_NullErr (E := E) same (ok v) =
    (Returned (Result_OkTag v), moved_ok v) /\
  unwrap (Result_OkTag v : Result T E) = (Returned v, moved_ok v) /\
  is_err (err e) = true /\
  unwrap_err (err e) = (Returned e, moved_err e) /\
  Result_from_NullOk (T := T) same (err e) =
    (Returned (Result_ErrTag e), moved_err e) /\
  unwrap_err (Result_ErrTag e : Result T E) = (Returned e, moved_err e).
Proof. repeat split. Qed.

(** The two sides exclude each other on anything just constructed. *)
Lemma ok_is_not_err (T : Type) (v : T) : is_err (ok v) = false.
Proof. reflexivity. Qed.

Lemma err_is_not_ok (E : Type) (e : E) : is_ok (err e) = false.
Proof. reflexivity. Qed.

(** Results built by the constructors are well formed. *)
Lemma constructed_well_formed (T E : Type) (v : T) (e : E) :
  well_formed (Result_OkTag v : Result T E) /\
  well_formed (Result_ErrTag e : Result T E).
Proof. split; exact I. Qed.

(** *** The panic path *)

Lemma panic_no_arguments (St A : Type) (s : St) :
  detail.panic (A := A) "Panic: Called as_ref() on a moved result!" [] s =
  (panic_with "Panic: Called as_ref() on a moved result!", s).
Proof. reflexivity. Qed.

(** [unwrap] on anything but Ok: the diagnostic names the state, and the
    exception carrying it is stopped at the [noexcept] of [panic]. *)
Lemma unwrap_not_ok (T E : Type) {MT : MoveConstructible T} (r : Result T E) :
  state_ r <> detail.Ok ->
  unwrap r =
  (panic_with
     (if detail.Err == state_ r
      then "Panic: Called unwrap() on an erroneous result!"
      else "Panic: Called unwrap() on a moved result!"), r).
Proof.
  intros H. destruct r as [d []]; try reflexivity.
  exfalso; apply H; reflexivity.
Qed.

Lemma unwrap_err_not_err (T E : Type) {ME : MoveConstructible E} (r : Result T E) :
  state_ r <> detail.Err ->
  unwrap_err r =
  (panic_with
     (if detail.Ok == state_ r
      then "Panic: Called unwrap_err() on an OK result!"
      else "Panic: Called unwrap_err() on a moved result!"), r).
Proof.
  intros H. destruct r as [d []]; try reflexivity.
  exfalso; apply H; reflexivity.
Qed.

Lemma expect_not_ok (T E : Type) {MT : MoveConstructible T}
    (r : Result T E) (msg : string) :
  state_ r <> detail.Ok ->
  expect msg r = detail.panic msg [] r.
Proof.
  intros H. destruct r as [d []]; try reflexivity.
  exfalso; apply H; reflexivity.
Qed.

(** [panic] never returns and never lets an exception out. *)
Lemma panic_outcome (St A : Type) (msg : string) (args : list string) (s : St) :
  (exists message, detail.panic (A := A) msg args s = (panic_with message, s)) \/
  detail.panic (A := A) msg args s = (Undefined, s).
Proof.
  unfold detail.panic, noexcept.
  destruct (std.sprintf msg args) as [buf |]; cbn.
  - left. exists buf. reflexivity.
  - right. reflexivity.
Qed.

(** *** The state machine *)

(** C2, as stated, fails: [unwrap_or_default] is an extraction, and on
    the instance that a first [unwrap] has consumed it returns a
    default-constructed value ([int()], i.e. 0) instead of panicking;
    [unwrap_or] likewise returns its argument. *)
Lemma consumed_instance_yields_default :
  let consumed_once := snd (unwrap (Result_OkTag 7 : Result Z Z)) in
  state_ consumed_once = detail.MovedOk /\
  unwrap_or_default consumed_once = (Returned 0, consumed_once) /\
  panicked (fst (unwrap_or_default consumed_once)) = false /\
  unwrap_or 99 consumed_once = (Returned 99, consumed_once).
Proof. repeat split. Qed.

(** C2, amended. The state of a result changes only from Ok to MovedOk
    or from Err to MovedErr, whatever operation is applied, and the
    storage keeps its active member; once the state is a moved one, no
    sequence of operations changes it again; and [unwrap], [unwrap_err]
    and [expect] on a moved instance call [detail::panic] (with the
    "a moved" diagnostic for the first two), leave the instance as it
    is, and return no value, neither a stale nor a default one. *)
Theorem state_machine_consume_once
    (T E : Type) {MT : MoveConstructible T} {ME : MoveConstructible E}
    (r r' : Result T E) :
  (step r r' ->
     transition (state_ r) (state_ r') /\
     (data_ r' = data_ r \/ data_ r' = moved_member (data_ r))) /\
  (consumed (state_ r) = true -> steps r r' -> state_ r' = state_ r) /\
  (consumed (state_ r) = true ->
     unwrap r = (panic_with "Panic: Called unwrap() on a moved result!", r) /\
     unwrap_err r = (panic_with "Panic: Called unwrap_err() on a moved result!", r) /\
     forall msg, expect msg r = detail.panic msg [] r /\
                 (forall stale : T, fst (expect msg r) <> Returned stale)).
Proof.
  split; [apply step_transition |].
  split; [intros C H; apply steps_consumed; assumption |].
  intros C.
  split; [| split].
  - destruct r as [d []]; try discriminate C; reflexivity.
  - destruct r as [d []]; try discriminate C; reflexivity.
  - intros msg.
    rewrite (expect_not_ok r msg (consumed_not_ok C)).
    split; [reflexivity |].
    intros stale.
    destruct (panic_outcome T msg [] r) as [[message ->] | ->];
      cbn; discriminate.
Qed.

Lemma state_machine_consume_once_witness :
  let fresh := Result_OkTag 7 : Result Z Z in
  let once := snd (unwrap fresh) in
  let twice := snd (unwrap once) in
  transition (state_ fresh) (state_ once) /\
  state_ twice = state_ once /\
  fst (unwrap once) = panic_with "Panic: Called unwrap() on a moved result!".
Proof.
  cbv zeta.
  pose proof (state_machine_consume_once
                (Result_OkTag 7 : Result Z Z)
                (snd (unwrap (Result_OkTag 7 : Result Z Z)))) as [H1 _].
  pose proof (state_machine_consume_once
                (snd (unwrap (Result_OkTag 7 : Result Z Z)))
                (snd (unwrap (snd (unwrap (Result_OkTag 7 : Result Z Z))))))
    as [_ [H2 H3]].
  split; [apply H1; apply step_unwrap |].
  split.
  - apply H2; [reflexivity |].
    eapply steps_more; [apply step_unwrap | apply steps_done].
  - destruct (H3 eq_refl) as [H _]. rewrite H. reflexivity.
Defined.

(** C3, evaluated. On Ok, [unwrap] moves the instance to MovedOk and
    returns the value, moved out of the storage. On Err and on a moved
    instance it formats the diagnostic naming which of the two it was
    and throws it as a [std::runtime_error] inside [detail::panic];
    [panic] is declared [noexcept], so the exception does not reach the
    caller of [unwrap]: the outcome is a call of [std::terminate], never
    [Thrown]. *)
Theorem unwrap_outcomes
    (T E : Type) {MT : MoveConstructible T}
    (v : T) (e : E) (r : Result T E) :
  unwrap (Result_OkTag v : Result T E) = (Returned v, moved_ok v) /\
  unwrap (Result_ErrTag e : Result T E) =
    (Terminated (escaped_noexcept
       (std.runtime_error_ctor "Panic: Called unwrap() on an erroneous result!")),
     Result_ErrTag e) /\
  unwrap (moved_ok v : Result T E) =
    (Terminated (escaped_noexcept
       (std.runtime_error_ctor "Panic: Called unwrap() on a moved result!")),
     moved_ok v) /\
  (forall thrown, fst (unwrap r) <> Thrown thrown).
Proof.
  repeat split.
  intros thrown.
  destruct r as [d []]; run_method; discriminate.
Qed.

(** *** Propagation *)

Lemma div_safe_by_zero (a : Z) (log : list call) :
  div_safe a 0 log =
  (Returned (Result_ErrTag (std.runtime_error_ctor "Division by zero is undefined!")),
   (log ++ [call_div_safe a 0])%list).
Proof. reflexivity. Qed.




(** With equal error types the failure comes back unchanged. *)
Corollary TRY_same_error_type
    (W T R E : Type) {MT : MoveConstructible T} {ME : MoveConstructible E}
    (e : E) (rest : T -> M W (Result R E)) (w : W) :
  TRY same (ret (Result_ErrTag e)) rest w = (Returned (Result_ErrTag e), w).
Proof. reflexivity. Qed.

(** On success the code after the TRY runs with the unwrapped value. *)
Lemma TRY_continues_on_success
    (W T F R E : Type) {MT : MoveConstructible T} {MF : MoveConstructible F}
    (conv : F -> E) (v : T)
    (rest : T -> M W (Result R E)) (w : W) :
  TRY conv (ret (Result_OkTag v)) rest w = rest v w.
Proof.
  unfold TRY. run_method; reflexivity.
Qed.

Example div_sqrt_50_2 :
  div_sqrt 50 2 [] = (Returned (Result_OkTag 5), [call_div_safe 50 2; call_sqrt 25]).
Proof. reflexivity. Qed.

(** *** Dispatch *)

(** C8. [match] on a result holding the success value [v] runs [if_ok]
    on [v] and nothing else; on a result holding the failure [e] it
    runs [if_err] on [e] and nothing else; in both cases it returns what
    that branch returns, the program state is the one that branch
    leaves, and the instance is consumed. On a failure carrying 10, with
    the branches of [test_match], the success branch (which would abort)
    is not run and the result is that of the failure branch. *)
Theorem match_dispatches_on_state
    (T E W R : Type) {MT : MoveConstructible T} {ME : MoveConstructible E}
    (if_ok : T -> M W R) (if_err : E -> M W R)
    (v : T) (e : E) (w : W) :
  match_ if_ok if_err (Result_OkTag v, w) =
    (fst (if_ok v w), (moved_ok v, snd (if_ok v w))) /\
  match_ if_ok if_err (Result_ErrTag e, w) =
    (fst (if_err e w), (moved_err e, snd (if_err e w))) /\
  match_ (fun x : Z => assert false "false")
         (fun e : Z => assert (e =? 10) "e == 10")
         (Result_ErrTag 10 : Result Z Z, w) =
    (Returned tt, (moved_err 10, w)) /\
  test_match tt = (Returned tt, tt).
Proof.
  repeat split.
  - run_method; reflexivity.
  - run_method; reflexivity.
Qed.

(** The branch not taken leaves no mark: with branches that record
    their own name, only the one selected by the state appears. *)
Example match_runs_one_branch :
  let record (name : string) (_ : Z) : M (list string) Z :=
    fun log => (Returned 0, (log ++ [name])%list) in
  snd (snd (match_ (record "if_ok") (record "if_err")
              (Result_ErrTag 10 : Result Z Z, []))) = ["if_err"] /\
  snd (snd (match_ (record "if_ok") (record "if_err")
              (Result_OkTag 10 : Result Z Z, []))) = ["if_ok"].
Proof. split; reflexivity. Qed.

(** *** Queries *)

(** C6, as stated, fails: after a successful [unwrap] the instance
    answers false to [is_ok], and after a successful [unwrap_err] it
    answers false to [is_err]. *)
Lemma queries_false_after_consumption :
  let after_unwrap := snd (unwrap (Result_OkTag 7 : Result Z Z)) in
  let after_unwrap_err := snd (unwrap_err (Result_ErrTag 7 : Result Z Z)) in
  state_ after_unwrap = detail.MovedOk /\
  is_ok after_unwrap = false /\
  state_ after_unwrap_err = detail.MovedErr /\
  is_err after_unwrap_err = false.
Proof. repeat split. Qed.

(** C6, amended. [is_ok] and [is_err] are functions of the state alone
    (they read no storage, change nothing and have an answer in every
    state): [is_ok] is true exactly in the Ok state and [is_err] exactly
    in the Err state, so both are false on every moved instance. *)
Theorem queries_read_state_only (T E : Type) (r : Result T E) :
  is_ok r = match state_ r with detail.Ok => true | _ => false end /\
  is_err r = match state_ r with detail.Err => true | _ => false end /\
  (forall d : detail.OkOrErr T E,
     is_ok {| data_ := d; state_ := state_ r |} = is_ok r /\
     is_err {| data_ := d; state_ := state_ r |} = is_err r) /\
  (if consumed (state_ r) then is_ok r = false /\ is_err r = false
   else is_ok r = negb (is_err r)).
Proof.
  destruct r as [d []]; repeat split.
Qed.

(** *** Fallback extractors *)

(** C5, as stated, fails: on a failure, [unwrap_or_else] calls [op]
    with no argument, so its result is the same whatever failure is
    stored, and it leaves the failure in place: the instance is still
    Err and [unwrap_err] still returns the stored value. *)
Lemma unwrap_or_else_ignores_failure :
  let op : M unit Z := ret 7 in
  let failure3 := Result_ErrTag 3 : Result Z Z in
  let failure4 := Result_ErrTag 4 : Result Z Z in
  unwrap_or_else op (failure3, tt) = (Returned 7, (failure3, tt)) /\
  unwrap_or_else op (failure4, tt) = (Returned 7, (failure4, tt)) /\
  state_ (fst (snd (unwrap_or_else op (failure3, tt)))) <> detail.MovedErr /\
  unwrap_err (fst (snd (unwrap_or_else op (failure3, tt)))) =
    (Returned 3, moved_err 3).
Proof.
  repeat split. cbn. discriminate.
Qed.

(** C5, amended. On a result holding the success value [v],
    [unwrap_or_else(op)] returns [v], consumes the instance and does not
    run [op]; on a result holding a failure it runs [op], which takes no
    argument, and returns what [op] returns, leaving the failure
    unconsumed in the instance. *)
Theorem unwrap_or_else_calls_nullary_op
    (T E W : Type) {MT : MoveConstructible T}
    (op : M W T) (v : T) (e : E) (w : W) :
  unwrap_or_else op (Result_OkTag v : Result T E, w) =
    (Returned v, (moved_ok v, w)) /\
  unwrap_or_else op (Result_ErrTag e : Result T E, w) =
    (fst (op w), (Result_ErrTag e, snd (op w))).
Proof.
  split.
  - reflexivity.
  - run_method; reflexivity.
Qed.

(** C7, as stated, fails: [unwrap_or] on a failure returns the default
    and does not consume the instance: it is still Err, and the failure
    value can still be extracted. *)
Lemma unwrap_or_keeps_failure :
  let failure := Result_ErrTag 3 : Result Z Z in
  unwrap_or 99 failure = (Returned 99, failure) /\
  consumed (state_ (snd (unwrap_or 99 failure))) = false /\
  unwrap_err (snd (unwrap_or 99 failure)) = (Returned 3, moved_err 3).
Proof. repeat split. Qed.

(** C7, amended. For every result holding a failure [e],
    [unwrap_or(optb)] returns [optb] and leaves the instance exactly as
    it was, in the Err state, so [e] can still be extracted with
    [unwrap_err]; the instance is consumed only when it held a success
    value, which is then what is returned. *)
Theorem unwrap_or_on_failure_is_untouched
    (T E : Type) {MT : MoveConstructible T} {ME : MoveConstructible E}
    (optb v : T) (e : E) :
  unwrap_or optb (Result_ErrTag e : Result T E) = (Returned optb, Result_ErrTag e) /\
  unwrap_err (snd (unwrap_or optb (Result_ErrTag e : Result T E))) =
    (Returned e, moved_err e) /\
  unwrap_or optb (Result_OkTag v : Result T E) = (Returned v, moved_ok v).
Proof. repeat split. Qed.

(** C10. In every state other than Ok, the moved ones included, the
    fallback extractors return their fallback and leave the instance as
    it is: [unwrap_or(optb)] returns [optb], [unwrap_or_else(op)] ends
    as [op()] ends, [unwrap_or_default()] returns [T()]. None of them
    calls [detail::panic]. *)
Theorem fallback_extractors_total
    (T E W : Type) {MT : MoveConstructible T} (D : DefaultConstructible T)
    (r : Result T E) (optb : T) (op : M W T) (w : W) :
  state_ r <> detail.Ok ->
  unwrap_or optb r = (Returned optb, r) /\
  unwrap_or_else op (r, w) = (fst (op w), (r, snd (op w))) /\
  unwrap_or_default r = (Returned default_ctor, r).
Proof.
  intros H.
  destruct r as [d []]; try (exfalso; apply H; reflexivity);
    repeat split; run_method; reflexivity.
Qed.

Lemma fallback_extractors_total_witness :
  unwrap_or 99 (moved_ok 7 : Result Z Z) = (Returned 99, moved_ok 7) /\
  unwrap_or_else (ret 5 : M unit Z) (moved_ok 7 : Result Z Z, tt) =
    (Returned 5, (moved_ok 7, tt)) /\
  unwrap_or_default (moved_ok 7 : Result Z Z) = (Returned 0, moved_ok 7).
Proof.
  refine (@fallback_extractors_total Z Z unit _ _
            (moved_ok 7) 99 (ret 5) tt _).
  cbn. discriminate.
Defined.

(** *** Equality *)

(** C9, as stated, fails: [==] on two results compares only whether
    each is Ok. Two successes with different values compare equal, and
    so do two failures with different values. *)
Lemma equality_ignores_values :
  builtin_eq (Result_OkTag 10 : Result Z Z) (Result_OkTag 11 : Result Z Z) = true /\
  builtin_ne (Result_OkTag 10 : Result Z Z) (Result_OkTag 11 : Result Z Z) = false /\
  builtin_eq (Result_ErrTag 1 : Result Z Z) (Result_ErrTag 2 : Result Z Z) = true /\
  builtin_eq (ok 10) (ok 11) = true /\
  builtin_eq (err 1) (err 2) = true.
Proof. repeat split. Qed.

(** C9, amended. No equality operator is defined on [Result]; [a == b]
    goes through the conversion to [bool] and is true exactly when both
    operands are in the Ok state or neither is, whatever values they
    hold, and [a != b] is its negation. So two successes always compare
    equal, two failures always compare equal, and a success and a
    failure always compare unequal, in either order; in particular
    ok(10) == ok(10), err(10) == err(10) and ok(10) != err(10), on the
    half-typed results and on their conversions to [Result<int, int>]. *)
Theorem equality_compares_ok_ness
    (T E T' E' : Type) (a : Result T E) (b : Result T' E')
    (v : T) (v' : T') (e : E) (e' : E') :
  (builtin_eq a b = true <-> (state_ a = detail.Ok <-> state_ b = detail.Ok)) /\
  builtin_ne a b = negb (builtin_eq a b) /\
  builtin_eq (Result_OkTag v : Result T E) (Result_OkTag v' : Result T' E') = true /\
  builtin_eq (Result_ErrTag e : Result T E) (Result_ErrTag e' : Result T' E') = true /\
  builtin_eq (Result_OkTag v : Result T E) (Result_ErrTag e' : Result T' E') = false /\
  builtin_eq (Result_ErrTag e : Result T E) (Result_OkTag v' : Result T' E') = false /\
  builtin_ne (Result_OkTag v : Result T E) (Result_ErrTag e' : Result T' E') = true /\
  (builtin_eq (ok 10) (ok 10) = true /\
   builtin_eq (err 10) (err 10) = true /\
   builtin_ne (ok 10) (err 10) = true) /\
  (builtin_eq (Result_OkTag 10 : Result Z Z) (Result_OkTag 10 : Result Z Z) = true /\
   builtin_eq (Result_ErrTag 10 : Result Z Z) (Result_ErrTag 10 : Result Z Z) = true /\
   builtin_ne (Result_OkTag 10 : Result Z Z) (Result_ErrTag 10 : Result Z Z) = true).
Proof.
  split; [| repeat split].
  unfold builtin_eq, operator_bool.
  destruct a as [da sa], b as [db sb]; cbn [state_].
  destruct sa, sb; cbn; split; intros H;
    try reflexivity; try discriminate H;
    try (split; intros H'; try reflexivity; discriminate H');
    try (destruct H as [H1 H2];
         first [ discriminate (H1 eq_refl) | discriminate (H2 eq_refl) ]).
Qed.

(** *** The test driver *)

Example tests_pass :
  fst (test_ok tt) = Returned (Result_OkTag 10) /\
  fst (test_err tt) = Returned (Result_ErrTag 10) /\
  test_is_ok_err tt = (Returned tt, tt) /\
  test_as_ref tt = (Returned tt, tt) /\
  test_map tt = (Returned tt, tt).
Proof. repeat split. Qed.

(** On an instance already moved from, [match] runs neither branch: it
    goes to [unwrap_err], which panics. *)
Lemma match_on_moved_runs_no_branch
    (T E W R : Type) {MT : MoveConstructible T} {ME : MoveConstructible E}
    (if_ok : T -> M W R) (if_err : E -> M W R)
    (r : Result T E) (w : W) :
  consumed (state_ r) = true ->
  match_ if_ok if_err (r, w) =
  (panic_with "Panic: Called unwrap_err() on a moved result!", (r, w)).
Proof.
  intros C. destruct r as [d []]; try discriminate C; reflexivity.
Qed.

(* ===================================================================== *)
(** ** Further properties of the class *)
(* ===================================================================== *)

(** *** map and map_err *)

(** X1. [map(project)] on a result holding the success value [v] runs
    [project] on [v]; if [project] returns [u] the outcome is a success
    holding [u], and however [project] ends the instance is consumed.
    On a result holding the failure [e] it does not run [project]: the
    outcome is a failure holding the same [e], the program state is
    untouched and the instance is consumed. *)
Theorem map_transforms_success_only
    (T E W U : Type) {MT : MoveConstructible T} {ME : MoveConstructible E}
    (project : T -> M W U) (v : T) (e : E) (w : W) :
  map project (Result_OkTag v : Result T E, w) =
    (match fst (project v w) with
     | Returned u => Returned (Result_OkTag u)
     | Thrown x => Thrown x
     | Terminated why => Terminated why
     | Undefined => Undefined
     end, (moved_ok v, snd (project v w))) /\
  map project (Result_ErrTag e : Result T E, w) =
    (Returned (Result_ErrTag e), (moved_err e, w)).
Proof.
  split.
  - run_method; reflexivity.
  - reflexivity.
Qed.

(** X2. [map_err(project)] is the mirror image: on a failure holding
    [e] it runs [project] on [e] and wraps what it returns as a failure;
    on a success holding [v] it does not run [project] and hands [v] on
    as a success. Either way the instance is consumed. *)
Theorem map_err_transforms_failure_only
    (T E W F : Type) {MT : MoveConstructible T} {ME : MoveConstructible E}
    (project : E -> M W F) (v : T) (e : E) (w : W) :
  map_err project (Result_ErrTag e : Result T E, w) =
    (match fst (project e w) with
     | Returned f => Returned (Result_ErrTag f)
     | Thrown x => Thrown x
     | Terminated why => Terminated why
     | Undefined => Undefined
     end, (moved_err e, snd (project e w))) /\
  map_err project (Result_OkTag v : Result T E, w) =
    (Returned (Result_OkTag v), (moved_ok v, w)).
Proof.
  split.
  - run_method; reflexivity.
  - reflexivity.
Qed.

(** X3. Mapping twice is mapping once with the composed function: for
    every result, in whatever state, and every program state,
    [r.map(f).map(g)] and [r.map(g after f)] end the same way, with the
    same result and the same program state. *)
Theorem map_composes
    (T E W U V : Type)
    {MT : MoveConstructible T} {ME : MoveConstructible E}
    {MU : MoveConstructible U}
    (f : T -> M W U) (g : U -> M W V) (r : Result T E) (w : W) :
  (mapped <- with_local r (map f) ;; with_local mapped (map g)) w =
  with_local r (map (fun t => u <- f t ;; g u)) w.
Proof.
  destruct r as [d []]; destruct d; try reflexivity;
    unfold with_local; run_method; reflexivity.
Qed.

(** X4. Mapping the function that returns its argument gives back a
    result equal to the one mapped, for every result that holds a
    value; the same for [map_err]. *)
Theorem map_identity
    (T E W : Type) {MT : MoveConstructible T} {ME : MoveConstructible E}
    (r : Result T E) (w : W) :
  live r ->
  with_local r (map (fun t => ret t)) w = (Returned r, w) /\
  with_local r (map_err (fun e => ret e)) w = (Returned r, w).
Proof.
  intros [[v [Hs Hd]] | [e [Hs Hd]]];
    destruct r as [d s]; cbn in Hs, Hd; subst; split; reflexivity.
Qed.

Lemma map_identity_witness :
  with_local (Result_ErrTag 3 : Result Z Z) (map (fun t => ret t)) tt =
    (Returned (Result_ErrTag 3), tt) /\
  with_local (Result_ErrTag 3 : Result Z Z) (map_err (fun e => ret e)) tt =
    (Returned (Result_ErrTag 3), tt).
Proof.
  refine (@map_identity Z Z unit _ _ (Result_ErrTag 3) tt _).
  right. exists 3. split; reflexivity.
Defined.

(** X5. A TRY whose continuation returns [ok(f(value))] is [map(f)]:
    for every expression, whatever it evaluates to, the function
    [{ TRY(expr, value); return ok(f(value)); }] and [expr.map(f)] end
    the same way, with the same result and the same program state. *)
Theorem TRY_then_ok_is_map
    (W T E U : Type)
    {MT : MoveConstructible T} {ME : MoveConstructible E}
    {MU : MoveConstructible U}
    (expr : M W (Result T E)) (f : T -> M W U) (w : W) :
  TRY same expr
      (fun value => u <- f value ;;
                    on_temporary (ok u) (Result_from_NullErr same)) w =
  (value <- expr ;; with_local value (map f)) w.
Proof.
  unfold TRY. cbn.
  destruct (expr w) as [[r | x | why |] w']; try reflexivity.
  destruct r as [d []]; destruct d; try reflexivity;
    unfold with_local, on_temporary, is_ok; run_method; reflexivity.
Qed.

(** *** all and any *)

(** X6. [all(res)] on a success does not touch the instance it is
    called on: it stays Ok and its value can still be extracted. The
    argument is moved into the returned result and left consumed. On a
    failure holding [e] the returned result is a failure holding [e],
    the instance is consumed and the argument is left as it was. On an
    instance already moved from it panics and leaves the argument
    alone. *)
Theorem all_returns_argument_or_own_failure
    (T E U : Type)
    {MT : MoveConstructible T} {ME : MoveConstructible E}
    {MU : MoveConstructible U}
    (v : T) (u : U) (e e' : E) (res : Result U E) (moved : Result T E) :
  all (Result_OkTag v : Result T E, Result_OkTag u : Result U E) =
    (Returned (Result_OkTag u), (Result_OkTag v, moved_ok u)) /\
  all (Result_OkTag v : Result T E, Result_ErrTag e' : Result U E) =
    (Returned (Result_ErrTag e'), (Result_OkTag v, moved_err e')) /\
  all (Result_ErrTag e : Result T E, res) =
    (Returned (Result_ErrTag e), (moved_err e, res)) /\
  (consumed (state_ moved) = true ->
   all (moved, res) =
     (panic_with "Panic: Called unwrap_err() on a moved result!", (moved, res))).
Proof.
  repeat split.
  intros C. destruct moved as [d []]; try discriminate C; reflexivity.
Qed.

Lemma all_returns_argument_or_own_failure_witness :
  all (moved_ok 1 : Result Z Z, Result_OkTag 2 : Result Z Z) =
  (panic_with "Panic: Called unwrap_err() on a moved result!",
   (moved_ok 1, Result_OkTag 2)).
Proof.
  refine (proj2 (proj2 (proj2
            (@all_returns_argument_or_own_failure Z Z Z _ _ _
               0 0 0 0 (Result_OkTag 2) (moved_ok 1)))) _).
  reflexivity.
Defined.

(** X7. [any(result)] is the mirror image: on a failure the instance is
    left as it was (still Err, still extractable) and the argument is
    moved into the returned result; on a success holding [v] the
    returned result is a success holding [v], the instance is consumed
    and the argument is left as it was. *)
Theorem any_returns_argument_or_own_success
    (T E F : Type)
    {MT : MoveConstructible T} {ME : MoveConstructible E}
    {MF : MoveConstructible F}
    (v v' : T) (e : E) (f : F) (res : Result T F) (moved : Result T E) :
  any (Result_ErrTag e : Result T E, Result_OkTag v' : Result T F) =
    (Returned (Result_OkTag v'), (Result_ErrTag e, moved_ok v')) /\
  any (Result_ErrTag e : Result T E, Result_ErrTag f : Result T F) =
    (Returned (Result_ErrTag f), (Result_ErrTag e, moved_err f)) /\
  any (Result_OkTag v : Result T E, res) =
    (Returned (Result_OkTag v), (moved_ok v, res)) /\
  (consumed (state_ moved) = true ->
   any (moved, res) =
     (panic_with "Panic: Called unwrap() on a moved result!", (moved, res))).
Proof.
  repeat split.
  intros C. destruct moved as [d []]; try discriminate C; reflexivity.
Qed.

Lemma any_returns_argument_or_own_success_witness :
  any (moved_err 1 : Result Z Z, Result_OkTag 2 : Result Z Z) =
  (panic_with "Panic: Called unwrap() on a moved result!",
   (moved_err 1, Result_OkTag 2)).
Proof.
  refine (proj2 (proj2 (proj2
            (@any_returns_argument_or_own_success Z Z Z _ _ _
               0 0 0 0 (Result_OkTag 2) (moved_err 1)))) _).
  reflexivity.
Defined.

(** *** as_ref *)

(** X8. [as_ref()] on a result that holds a value returns a result in
    the same state holding a reference to that value, and leaves the
    instance exactly as it was, so the value can still be extracted
    afterwards; on an instance already moved from it panics with its
    own diagnostic. *)
Theorem as_ref_views_without_consuming
    (T E : Type) {MT : MoveConstructible T} {ME : MoveConstructible E}
    (v : T) (e : E) (r : Result T E) :
  as_ref (Result_OkTag v : Result T E) =
    (Returned (Result_OkTag (std.ref v)), Result_OkTag v) /\
  as_ref (Result_ErrTag e : Result T E) =
    (Returned (Result_ErrTag (std.ref e)), Result_ErrTag e) /\
  (live r -> snd (as_ref r) = r /\ unwrap (snd (as_ref r)) = unwrap r) /\
  (consumed (state_ r) = true ->
   as_ref r = (panic_with "Panic: Called as_ref() on a moved result!", r)).
Proof.
  split; [reflexivity |].
  split; [reflexivity |].
  split.
  - intros [[x [Hs Hd]] | [x [Hs Hd]]];
      destruct r as [d s]; cbn in Hs, Hd; subst; split; reflexivity.
  - intros C. destruct r as [d []]; try discriminate C; reflexivity.
Qed.

Lemma as_ref_views_without_consuming_witness :
  (snd (as_ref (Result_OkTag 10 : Result Z Z)) = Result_OkTag 10 /\
   unwrap (snd (as_ref (Result_OkTag 10 : Result Z Z))) =
     unwrap (Result_OkTag 10 : Result Z Z)) /\
  as_ref (moved_ok 10 : Result Z Z) =
    (panic_with "Panic: Called as_ref() on a moved result!", moved_ok 10).
Proof.
  split.
  - refine (proj1 (proj2 (proj2
              (@as_ref_views_without_consuming Z Z _ _ 0 0 (Result_OkTag 10)))) _).
    left. exists 10. split; reflexivity.
  - refine (proj2 (proj2 (proj2
              (@as_ref_views_without_consuming Z Z _ _ 0 0 (moved_ok 10)))) _).
    reflexivity.
Defined.

(** *** expect and unwrap_err *)

(** A character other than the percent sign is copied by [sprintf]. *)
Lemma sprintf_ordinary_character (c : ascii) (rest : string) (args : list string) :
  c <> "%"%char ->
  std.sprintf (String c rest) args = option_map (String c) (std.sprintf rest args).
Proof.
  intros Hc.
  destruct c as [[] [] [] [] [] [] [] []]; try reflexivity.
  exfalso; apply Hc; reflexivity.
Qed.

(** A message without a percent sign is its own formatting. *)
Lemma sprintf_plain_message (msg : string) (args : list string) :
  ~ In "%"%char (list_ascii_of_string msg) ->
  std.sprintf msg args = Some msg.
Proof.
  induction msg as [| c rest IH]; intros Hfree.
  - reflexivity.
  - cbn [list_ascii_of_string In] in Hfree.
    rewrite sprintf_ordinary_character
      by (intros ->; apply Hfree; left; reflexivity).
    rewrite IH by (intros Hin; apply Hfree; right; exact Hin).
    reflexivity.
Qed.

(** A directive left without an argument has no defined formatting. *)
Lemma sprintf_missing_argument (msg : string) :
  ~ In "%"%char (list_ascii_of_string msg) ->
  std.sprintf (msg ++ "%s")%string [] = None.
Proof.
  induction msg as [| c rest IH]; intros Hfree.
  - reflexivity.
  - cbn [list_ascii_of_string In] in Hfree. cbn [append].
    rewrite sprintf_ordinary_character
      by (intros ->; apply Hfree; left; reflexivity).
    rewrite IH by (intros Hin; apply Hfree; right; exact Hin).
    reflexivity.
Qed.

(** X9. [expect(msg)] on a success returns the value and consumes the
    instance. On anything else it hands [msg] to [detail::panic] as the
    format string: when [msg] contains no percent sign the diagnostic is
    [msg] itself and the instance is left as it was; when such a [msg]
    is followed by [%s] the behaviour is undefined, since [panic] is
    given no argument to format. *)
Theorem expect_reports_message_verbatim
    (T E : Type) {MT : MoveConstructible T}
    (v : T) (r : Result T E) (msg : string) :
  state_ r <> detail.Ok ->
  ~ In "%"%char (list_ascii_of_string msg) ->
  expect msg (Result_OkTag v : Result T E) = (Returned v, moved_ok v) /\
  expect msg r = (panic_with msg, r) /\
  expect (msg ++ "%s")%string r = (Undefined, r).
Proof.
  intros Hstate Hfree.
  split; [reflexivity |].
  split.
  - rewrite (expect_not_ok r msg Hstate).
    unfold detail.panic, noexcept.
    rewrite (sprintf_plain_message msg [] Hfree). reflexivity.
  - rewrite (expect_not_ok r (msg ++ "%s")%string Hstate).
    unfold detail.panic, noexcept.
    rewrite (sprintf_missing_argument msg Hfree). reflexivity.
Qed.

Lemma expect_reports_message_verbatim_witness :
  expect "no value" (Result_OkTag 1 : Result Z Z) = (Returned 1, moved_ok 1) /\
  expect "no value" (Result_ErrTag 2 : Result Z Z) =
    (panic_with "no value", Result_ErrTag 2) /\
  expect "no value%s" (Result_ErrTag 2 : Result Z Z) = (Undefined, Result_ErrTag 2).
Proof.
  refine (@expect_reports_message_verbatim Z Z _ 1 (Result_ErrTag 2) "no value" _ _).
  - cbn. discriminate.
  - cbn. intros H. repeat (destruct H as [H | H]; [discriminate H |]). exact H.
Defined.

(** X10. [unwrap_err] on a failure returns the value and consumes the
    instance; on a success it panics with the "an OK" diagnostic and on
    a moved instance with the "a moved" one; in both cases the instance
    is left as it was, and no exception reaches the caller. *)
Theorem unwrap_err_outcomes
    (T E : Type) {ME : MoveConstructible E}
    (v : T) (e : E) (r : Result T E) :
  unwrap_err (Result_ErrTag e : Result T E) = (Returned e, moved_err e) /\
  unwrap_err (Result_OkTag v : Result T E) =
    (panic_with "Panic: Called unwrap_err() on an OK result!", Result_OkTag v) /\
  (consumed (state_ r) = true ->
   unwrap_err r =
     (panic_with "Panic: Called unwrap_err() on a moved result!", r)) /\
  (forall thrown, fst (unwrap_err r) <> Thrown thrown).
Proof.
  repeat split.
  - intros C. destruct r as [d []]; try discriminate C; reflexivity.
  - intros thrown. destruct r as [d []]; run_method; discriminate.
Qed.

Lemma unwrap_err_outcomes_witness :
  unwrap_err (moved_err 4 : Result Z Z) =
  (panic_with "Panic: Called unwrap_err() on a moved result!", moved_err 4).
Proof.
  refine (proj1 (proj2 (proj2
            (@unwrap_err_outcomes Z Z _ 0 0 (moved_err 4)))) _).
  reflexivity.
Defined.

(** *** Constructors from another result *)

(** X11. Move construction from a result holding a value yields a
    result in the same state holding that value and leaves the source
    consumed; move construction from a source already moved from panics
    (through [unwrap_err], so with its diagnostic) and builds nothing. *)
Theorem Result_move_transfers_value
    (T E : Type) {MT : MoveConstructible T} {ME : MoveConstructible E}
    (v : T) (e : E) (r : Result T E) :
  Result_move (Result_OkTag v : Result T E) =
    (Returned (Result_OkTag v), moved_ok v) /\
  Result_move (Result_ErrTag e : Result T E) =
    (Returned (Result_ErrTag e), moved_err e) /\
  (consumed (state_ r) = true ->
   Result_move r =
     (panic_with "Panic: Called unwrap_err() on a moved result!", r)).
Proof.
  repeat split.
  intros C. destruct r as [d []]; try discriminate C; reflexivity.
Qed.

Lemma Result_move_transfers_value_witness :
  Result_move (moved_ok 5 : Result Z Z) =
  (panic_with "Panic: Called unwrap_err() on a moved result!", moved_ok 5).
Proof.
  refine (proj2 (proj2
            (@Result_move_transfers_value Z Z _ _ 0 0 (moved_ok 5))) _).
  reflexivity.
Defined.

(** X12. Converting a half-typed result whose state is not the one the
    conversion needs never builds a result: [Result(Result<U, NullErr>&&)]
    on a source that is not Ok and [Result(Result<NullOk, F>&&)] on a
    source that is not Err both end in [detail::panic], reached through
    [unwrap] and [unwrap_err] respectively, and leave the source as it
    was. *)
Theorem conversion_from_wrong_state_panics
    (T E U F : Type) {MU : MoveConstructible U} {MF : MoveConstructible F}
    (conv_ok : U -> T) (conv_err : F -> E)
    (from_ok : Result U variants.NullErr) (from_err : Result variants.NullOk F) :
  (state_ from_ok <> detail.Ok ->
   Result_from_NullErr (E := E) conv_ok from_ok =
     (panic_with
        (if detail.Err == state_ from_ok
         then "Panic: Called unwrap() on an erroneous result!"
         else "Panic: Called unwrap() on a moved result!"), from_ok)) /\
  (state_ from_err <> detail.Err ->
   Result_from_NullOk (T := T) conv_err from_err =
     (panic_with
        (if detail.Ok == state_ from_err
         then "Panic: Called unwrap_err() on an OK result!"
         else "Panic: Called unwrap_err() on a moved result!"), from_err)).
Proof.
  split; intros H.
  - destruct from_ok as [d []]; try reflexivity. exfalso; apply H; reflexivity.
  - destruct from_err as [d []]; try reflexivity. exfalso; apply H; reflexivity.
Qed.

Lemma conversion_from_wrong_state_panics_witness :
  Result_from_NullErr (T := Z) (E := Z) same (snd (unwrap (ok 1))) =
    (panic_with "Panic: Called unwrap() on a moved result!", snd (unwrap (ok 1))) /\
  Result_from_NullOk (T := Z) (E := Z) same (snd (unwrap_err (err 2))) =
    (panic_with "Panic: Called unwrap_err() on a moved result!",
     snd (unwrap_err (err 2))).
Proof.
  pose proof (@conversion_from_wrong_state_panics Z Z Z Z _ _ same same
                (snd (unwrap (ok 1))) (snd (unwrap_err (err 2)))) as [H1 H2].
  split.
  - apply H1. cbn. discriminate.
  - apply H2. cbn. discriminate.
Defined.

(** X13. The constructors of the header variant with invalid-source
    checks accept exactly the sources the unchecked ones accept, build
    the same result from them and leave the source in the same state;
    they differ only in the diagnostic of the panic. For the move
    constructor the checked diagnostic on a moved source names the
    constructor. *)
Theorem checked_constructors_agree_with_unchecked
    (T E U F : Type)
    {MT : MoveConstructible T} {ME : MoveConstructible E}
    {MU : MoveConstructible U} {MF : MoveConstructible F}
    (conv_ok : U -> T) (conv_err : F -> E)
    (r : Result T E)
    (from_ok : Result U variants.NullErr) (from_err : Result variants.NullOk F) :
  (snd (with_invalid_checks.Result_move r) = snd (Result_move r) /\
   (forall built, fst (with_invalid_checks.Result_move r) = Returned built <->
                  fst (Result_move r) = Returned built) /\
   (consumed (state_ r) = true ->
    with_invalid_checks.Result_move r =
      (panic_with "Panic: Called Result(Result&&) with a moved result!", r))) /\
  (snd (with_invalid_checks.Result_from_NullErr (E := E) conv_ok from_ok) =
     snd (Result_from_NullErr (E := E) conv_ok from_ok) /\
   forall built,
     fst (with_invalid_checks.Result_from_NullErr (E := E) conv_ok from_ok) =
       Returned built <->
     fst (Result_from_NullErr (E := E) conv_ok from_ok) = Returned built) /\
  (snd (with_invalid_checks.Result_from_NullOk (T := T) conv_err from_err) =
     snd (Result_from_NullOk (T := T) conv_err from_err) /\
   forall built,
     fst (with_invalid_checks.Result_from_NullOk (T := T) conv_err from_err) =
       Returned built <->
     fst (Result_from_NullOk (T := T) conv_err from_err) = Returned built).
Proof.
  split; [| split].
  - split; [| split].
    + destruct r as [d []]; reflexivity.
    + intros built. destruct r as [d []]; cbn; split; intros H;
        try exact H; discriminate H.
    + intros C. destruct r as [d []]; try discriminate C; reflexivity.
  - split.
    + destruct from_ok as [d []]; reflexivity.
    + intros built. destruct from_ok as [d []]; cbn; split; intros H;
        try exact H; discriminate H.
  - split.
    + destruct from_err as [d []]; reflexivity.
    + intros built. destruct from_err as [d []]; cbn; split; intros H;
        try exact H; discriminate H.
Qed.

Lemma checked_constructors_agree_with_unchecked_witness :
  with_invalid_checks.Result_move (moved_ok 5 : Result Z Z) =
  (panic_with "Panic: Called Result(Result&&) with a moved result!", moved_ok 5).
Proof.
  refine (proj2 (proj2 (proj1
            (@checked_constructors_agree_with_unchecked Z Z Z Z _ _ _ _
               same same (moved_ok 5) (ok 0) (err 0)))) _).
  reflexivity.
Defined.

(** X14. The diagnostics of the checked converting constructors: the
    one from [Result<U, NullErr>] names an erroneous or a moved source;
    the one from [Result<NullOk, F>] says "a moved result" for every
    source that is not Err, a source in the Ok state included. *)
Theorem checked_conversion_diagnostics
    (T E U F : Type) {MU : MoveConstructible U} {MF : MoveConstructible F}
    (conv_ok : U -> T) (conv_err : F -> E)
    (from_ok : Result U variants.NullErr) (from_err : Result variants.NullOk F) :
  (state_ from_ok <> detail.Ok ->
   with_invalid_checks.Result_from_NullErr (E := E) conv_ok from_ok =
     (panic_with
        (if detail.Err == state_ from_ok
         then "Panic: Called Result(Result<U, variants::NullErr>&&) with an erroneous result!"
         else "Panic: Called Result(Result<U, variants::NullErr>&&) with a moved result!"),
      from_ok)) /\
  (state_ from_err <> detail.Err ->
   with_invalid_checks.Result_from_NullOk (T := T) conv_err from_err =
     (panic_with
        "Panic: Called Result(Result<variants::NullOk, F>&&) with a moved result!",
      from_err)).
Proof.
  split; intros H.
  - destruct from_ok as [d []]; try reflexivity. exfalso; apply H; reflexivity.
  - destruct from_err as [d []]; try reflexivity. exfalso; apply H; reflexivity.
Qed.

Lemma checked_conversion_diagnostics_witness :
  with_invalid_checks.Result_from_NullErr (T := Z) (E := Z) same
      (Result_ErrTag variants.NullErr_ctor : Result Z variants.NullErr) =
    (panic_with
       "Panic: Called Result(Result<U, variants::NullErr>&&) with an erroneous result!",
     Result_ErrTag variants.NullErr_ctor) /\
  with_invalid_checks.Result_from_NullOk (T := Z) (E := Z) same
      (Result_OkTag variants.NullOk_ctor : Result variants.NullOk Z) =
    (panic_with
       "Panic: Called Result(Result<variants::NullOk, F>&&) with a moved result!",
     Result_OkTag variants.NullOk_ctor).
Proof.
  pose proof (@checked_conversion_diagnostics Z Z Z Z _ _ same same
                (Result_ErrTag variants.NullErr_ctor)
                (Result_OkTag variants.NullOk_ctor)) as [H1 H2].
  split.
  - apply H1. cbn. discriminate.
  - apply H2. cbn. discriminate.
Defined.

(** *** What the operations hand out *)

Lemma live_well_formed (T E : Type) (r : Result T E) : live r -> well_formed r.
Proof.
  intros [[v [Hs Hd]] | [e [Hs Hd]]]; unfold well_formed; rewrite Hs, Hd; exact I.
Qed.

(** Turns a hypothesis saying that a computation returned into the
    equations it decides. *)
Ltac unfold_methods_in H :=
  cbv beta iota delta
    [as_ref unwrap unwrap_err map map_err all any
     Result_move Result_from_NullErr Result_from_NullOk set_state_
     move_data_ok move_data_err
     detail.read_ok detail.read_err detail.panic noexcept throw undefined
     get put on_self on_env bind ret Monad_M fst snd state_ data_] in H.

Ltac returned H :=
  unfold_methods_in H; cbn in H;
  repeat (match type of H with
          | context [match ?x with _ => _ end] =>
              lazymatch x with
              | context [match _ with _ => _ end] => fail
              | _ => destruct x eqn:?
              end
          end; unfold_methods_in H; cbn in H);
  try discriminate H.

Ltac live_result H :=
  injection H as <-;
  first [ left; eexists; split; reflexivity
        | right; eexists; split; reflexivity ].

(** X15. Every result handed out by [map], [map_err], [all], [any],
    [as_ref], the move constructor and the two converting constructors
    holds a value: whatever the object they are applied to, and
    whatever the callable does, if they return at all the result is in
    the Ok state with [data_.ok] active or in the Err state with
    [data_.err] active, never a moved or mismatched one. *)
Theorem returned_results_hold_a_value
    (T E U F W : Type)
    {MT : MoveConstructible T} {ME : MoveConstructible E}
    {MU : MoveConstructible U} {MF : MoveConstructible F}
    (r : Result T E) (w : W) :
  (forall (project : T -> M W U) out,
     fst (map project (r, w)) = Returned out -> live out) /\
  (forall (project : E -> M W F) out,
     fst (map_err project (r, w)) = Returned out -> live out) /\
  (forall (res : Result U E) out,
     fst (all (r, res)) = Returned out -> live out) /\
  (forall (res : Result T F) out,
     fst (any (r, res)) = Returned out -> live out) /\
  (forall out, fst (as_ref r) = Returned out -> live out) /\
  (forall out, fst (Result_move r) = Returned out -> live out) /\
  (forall (conv : U -> T) (src : Result U variants.NullErr) out,
     fst (Result_from_NullErr (E := E) conv src) = Returned out -> live out) /\
  (forall (conv : F -> E) (src : Result variants.NullOk F) out,
     fst (Result_from_NullOk (T := T) conv src) = Returned out -> live out).
Proof.
  repeat split.
  - intros project out H.
    destruct r as [d []]; returned H; live_result H.
  - intros project out H.
    destruct r as [d []]; returned H; live_result H.
  - intros res out H.
    destruct r as [d []]; destruct res as [d' []]; returned H; live_result H.
  - intros res out H.
    destruct r as [d []]; destruct res as [d' []]; returned H; live_result H.
  - intros out H.
    destruct r as [d []]; returned H; live_result H.
  - intros out H.
    destruct r as [d []]; returned H; live_result H.
  - intros conv src out H.
    destruct src as [d []]; returned H; live_result H.
  - intros conv src out H.
    destruct src as [d []]; returned H; live_result H.
Qed.

Lemma returned_results_hold_a_value_witness :
  live (Result_OkTag 9 : Result Z Z).
Proof.
  refine (proj1 (@returned_results_hold_a_value Z Z Z Z unit _ _ _ _
                   (Result_OkTag 3) tt)
            (fun t => ret (t * t)) (Result_OkTag 9) _).
  reflexivity.
Defined.

(** *** The destructor *)

Lemma steps_well_formed {T E : Type}
    {MT : MoveConstructible T} {ME : MoveConstructible E}
    (r r' : Result T E) :
  steps r r' -> well_formed r -> well_formed r'.
Proof.
  induction 1 as [r | r r' r'' Hstep _ IH]; intros Hwf.
  - exact Hwf.
  - apply IH. exact (step_well_formed Hstep Hwf).
Qed.

(** X16. The destructor destroys the member that is active: on an
    object whose state and storage agree it returns, and so it does on
    every object reached from one by any sequence of operations of the
    class, consumed or not. Were the storage on the other side of what
    the state says, it would destroy a member that is not there. *)
Theorem destructor_destroys_active_member
    (T E : Type) {MT : MoveConstructible T} {ME : MoveConstructible E}
    (r r' : Result T E) (v : T) (e : E) :
  well_formed r -> steps r r' ->
  Result_dtor r' = (Returned tt, r') /\
  Result_dtor {| data_ := detail.err e; state_ := detail.MovedOk |} =
    (Undefined, {| data_ := detail.err e; state_ := detail.MovedOk |} : Result T E) /\
  Result_dtor {| data_ := detail.ok v; state_ := detail.MovedErr |} =
    (Undefined, {| data_ := detail.ok v; state_ := detail.MovedErr |} : Result T E).
Proof.
  intros Hwf Hsteps.
  split; [| split; reflexivity].
  pose proof (steps_well_formed Hsteps Hwf) as Hwf'.
  destruct r' as [d []]; destruct d; cbn in Hwf'; try contradiction; reflexivity.
Qed.

Lemma destructor_destroys_active_member_witness :
  Result_dtor (snd (unwrap_or 0 (snd (unwrap (Result_OkTag 7 : Result Z Z))))) =
  (Returned tt, moved_ok 7).
Proof.
  refine (proj1 (@destructor_destroys_active_member Z Z _ _
                   (Result_OkTag 7)
                   (snd (unwrap_or 0 (snd (unwrap (Result_OkTag 7 : Result Z Z)))))
                   0 0 _ _)).
  - exact I.
  - eapply steps_more; [apply step_unwrap |].
    eapply steps_more; [apply step_unwrap_or | apply steps_done].
Defined.

(** *** TRY on the other outcomes *)

(** X17. When the expression given to TRY evaluates to a result holding
    the success value [v], the code after the TRY runs with [v], from
    the program state the expression left. When it evaluates to a
    result already moved from, the enclosing function neither continues
    nor returns a failure: it ends in the panic of [unwrap_err]. *)
Theorem TRY_binds_success_and_rejects_moved
    (W T F R E : Type) {MT : MoveConstructible T} {MF : MoveConstructible F}
    (conv : F -> E)
    (expr : M W (Result T F)) (rest : T -> M W (Result R E))
    (w w' : W) (r : Result T F) :
  expr w = (Returned r, w') ->
  (forall v, holds_ok r v -> TRY conv expr rest w = rest v w') /\
  (consumed (state_ r) = true ->
   TRY conv expr rest w =
     (panic_with "Panic: Called unwrap_err() on a moved result!", w')).
Proof.
  intros Hexpr. split.
  - intros v [Hs Hd]. unfold TRY. cbn. rewrite Hexpr.
    destruct r as [d s]. cbn in Hs, Hd. subst d s.
    unfold with_local, is_ok. run_method; reflexivity.
  - intros C. unfold TRY. cbn. rewrite Hexpr.
    destruct r as [d []]; try discriminate C; reflexivity.
Qed.

Lemma TRY_binds_success_and_rejects_moved_witness :
  TRY std.base (div_safe 50 2)
      (fun value => root <- sqrt value ;;
                    on_temporary (ok root) (Result_from_NullErr same)) [] =
  (Returned (Result_OkTag 5), [call_div_safe 50 2; call_sqrt 25]).
Proof.
  refine (proj1 (@TRY_binds_success_and_rejects_moved
                   (list call) Z std.runtime_error Z std.exception _ _
                   std.base (div_safe 50 2)
                   (fun value => root <- sqrt value ;;
                                 on_temporary (ok root) (Result_from_NullErr same))
                   [] [call_div_safe 50 2] (Result_OkTag 25) _) 25 _).
  - reflexivity.
  - split; reflexivity.
Defined.

(** *** The demo *)

Lemma int_quot_in_range (a b : Z) :
  INT_MIN <= a <= INT_MAX -> b <> 0 -> ~ (a = INT_MIN /\ b = -1) ->
  INT_MIN <= Z.quot a b <= INT_MAX.
Proof.
  unfold INT_MIN, INT_MAX. intros Ha Hb Hover.
  assert (Habs : Z.abs (Z.quot a b) * Z.abs b <= Z.abs a).
  { rewrite <- Z.quot_abs by exact Hb.
    rewrite Z.mul_comm. apply Z.mul_quot_le; lia. }
  change (2 ^ 31) with 2147483648 in *.
  destruct (Z.eq_dec b (-1)) as [-> | Hb1].
  - assert (Hq : Z.quot a (-1) = - a).
    { change (-1) with (Z.opp 1).
      rewrite Z.quot_opp_r by discriminate. rewrite Z.quot_1_r. reflexivity. }
    rewrite Hq. lia.
  - destruct (Z.eq_dec b 1) as [-> | Hb2].
    + rewrite Z.quot_1_r. lia.
    + assert (2 <= Z.abs b) by lia. nia.
Qed.

(** X18. [div_safe(a, b)] on [int] arguments with [b] not zero, the one
    overflowing pair (INT_MIN, -1) excepted, returns a success holding
    the quotient truncated towards zero: an [int] [q] with
    [a = b * q + r] and [|r| < |b|]. On (INT_MIN, -1) the division has
    no defined result, and on a zero divisor the outcome is a failure
    holding the runtime_error "Division by zero is undefined!". *)
Theorem div_safe_divides
    (a b : Z) (log : list call) :
  INT_MIN <= a <= INT_MAX -> INT_MIN <= b <= INT_MAX ->
  (b <> 0 -> ~ (a = INT_MIN /\ b = -1) ->
   exists q r,
     div_safe a b log =
       (Returned (Result_OkTag q), (log ++ [call_div_safe a b])%list) /\
     INT_MIN <= q <= INT_MAX /\
     a = b * q + r /\ Z.abs r < Z.abs b /\ 0 <= r * a) /\
  (b = 0 ->
   div_safe a b log =
     (Returned (Result_ErrTag
                  (std.runtime_error_ctor "Division by zero is undefined!")),
      (log ++ [call_div_safe a b])%list)) /\
  fst (div_safe INT_MIN (-1) log) = Undefined.
Proof.
  intros Ha Hb.
  split; [| split; [| reflexivity]].
  - intros Hnz Hover.
    exists (Z.quot a b), (Z.rem a b).
    split; [| split; [| split; [| split]]].
    + assert (Hz : (b =? 0) = false) by (apply Z.eqb_neq; exact Hnz).
      assert (Hc : (a =? INT_MIN) && (b =? -1) = false).
      { destruct (Z.eqb_spec a INT_MIN) as [Ha' | _];
          destruct (Z.eqb_spec b (-1)) as [Hb' | _]; try reflexivity.
        exfalso; apply Hover; split; assumption. }
      unfold div_safe, int_div. rewrite Hz, Hc. reflexivity.
    + apply int_quot_in_range; assumption.
    + apply Z.quot_rem'.
    + apply Z.rem_bound_abs; exact Hnz.
    + apply Z.rem_sign_mul; exact Hnz.
  - intros ->. reflexivity.
Qed.

Lemma div_safe_divides_witness :
  exists q r,
    div_safe (-7) 2 [] = (Returned (Result_OkTag q), [call_div_safe (-7) 2]) /\
    INT_MIN <= q <= INT_MAX /\
    -7 = 2 * q + r /\ Z.abs r < Z.abs 2 /\ 0 <= r * -7.
Proof.
  refine (proj1 (@div_safe_divides (-7) 2 [] _ _) _ _).
  - unfold INT_MIN, INT_MAX; cbn; lia.
  - unfold INT_MIN, INT_MAX; cbn; lia.
  - lia.
  - intros [H _]. discriminate H.
Defined.

(** The four ways [div_sqrt] can go. *)
Lemma div_sqrt_cases (a b : Z) (log : list call) :
  div_sqrt a b log =
  if b =? 0 then
    (Returned (Result_ErrTag
       (std.base (std.runtime_error_ctor "Division by zero is undefined!"))),
     (log ++ [call_div_safe a b])%list)
  else if (a =? INT_MIN) && (b =? -1) then
    (Undefined, (log ++ [call_div_safe a b])%list)
  else if Z.quot a b <? 0 then
    (Undefined, (log ++ [call_div_safe a b; call_sqrt (Z.quot a b)])%list)
  else
    (Returned (Result_OkTag (Z.sqrt (Z.quot a b))),
     (log ++ [call_div_safe a b; call_sqrt (Z.quot a b)])%list).
Proof.
  unfold div_sqrt, TRY, div_safe, int_div, sqrt, entered.
  destruct (b =? 0); [reflexivity |].
  destruct ((a =? INT_MIN) && (b =? -1)); [reflexivity |].
  unfold with_local, on_temporary, on_self, on_env, is_ok, same. cbn.
  destruct (Z.quot a b <? 0); cbn; rewrite <- app_assoc; reflexivity.
Qed.

(** X19. [div_sqrt(a, b)] never ends in [detail::panic], whatever the
    arguments: the result it gets from [div_safe] always holds a value,
    so neither [unwrap] nor [unwrap_err] inside TRY is misused. When it
    returns, the result holds a value, and it is a success exactly when
    the divisor is not zero. The first call it makes is the one to
    [div_safe]. *)
Theorem div_sqrt_never_panics (a b : Z) (log : list call) :
  panicked (fst (div_sqrt a b log)) = false /\
  (forall thrown, fst (div_sqrt a b log) <> Thrown thrown) /\
  (forall out, fst (div_sqrt a b log) = Returned out ->
     live out /\ (is_ok out = true <-> b <> 0)) /\
  (exists later, snd (div_sqrt a b log) = (log ++ call_div_safe a b :: later)%list).
Proof.
  rewrite div_sqrt_cases.
  destruct (Z.eqb_spec b 0) as [-> | Hnz].
  - split; [reflexivity |].
    split; [intros thrown; discriminate |].
    split.
    + intros out H. injection H as <-. split.
      * right. eexists. split; reflexivity.
      * split; [intros Hok; discriminate Hok
               | intros Hne; contradiction Hne; reflexivity].
    + exists []. reflexivity.
  - destruct ((a =? INT_MIN) && (b =? -1)).
    + split; [reflexivity |].
      split; [intros thrown; discriminate |].
      split; [intros out H; discriminate H |].
      exists []. reflexivity.
    + destruct (Z.quot a b <? 0).
      * split; [reflexivity |].
        split; [intros thrown; discriminate |].
        split; [intros out H; discriminate H |].
        exists [call_sqrt (Z.quot a b)]. reflexivity.
      * split; [reflexivity |].
        split; [intros thrown; discriminate |].
        split.
        -- intros out H. injection H as <-. split.
           ++ left. eexists. split; reflexivity.
           ++ split; [intros _; exact Hnz | intros _; reflexivity].
        -- exists [call_sqrt (Z.quot a b)]. reflexivity.
Qed.

Lemma div_sqrt_never_panics_witness :
  live (Result_OkTag 5 : Result Z std.exception) /\
  (is_ok (Result_OkTag 5 : Result Z std.exception) = true <-> 2 <> 0).
Proof.
  refine (proj1 (proj2 (proj2 (@div_sqrt_never_panics 50 2 [])))
            (Result_OkTag 5) _).
  reflexivity.
Defined.

(** X20. On a divisor that is not zero (and not the overflowing pair)
    [div_sqrt(a, b)] is [sqrt] applied to the truncated quotient, after
    the call to [div_safe], with what [sqrt] returns wrapped as a
    success; it ends as [sqrt] ends. *)
Theorem div_sqrt_is_sqrt_of_quotient (a b : Z) (log : list call) :
  b <> 0 -> ~ (a = INT_MIN /\ b = -1) ->
  div_sqrt a b log =
  (root <- sqrt (Z.quot a b) ;; ret (Result_OkTag root))
    (log ++ [call_div_safe a b])%list.
Proof.
  intros Hnz Hover.
  assert (Hz : (b =? 0) = false) by (apply Z.eqb_neq; exact Hnz).
  assert (Hc : (a =? INT_MIN) && (b =? -1) = false).
  { destruct (Z.eqb_spec a INT_MIN) as [Ha' | _];
      destruct (Z.eqb_spec b (-1)) as [Hb' | _]; try reflexivity.
    exfalso; apply Hover; split; assumption. }
  rewrite div_sqrt_cases, Hz, Hc.
  unfold sqrt, entered. cbn.
  destruct (Z.quot a b <? 0); cbn; rewrite <- app_assoc; reflexivity.
Qed.

Lemma div_sqrt_is_sqrt_of_quotient_witness :
  div_sqrt 50 2 [] =
  (root <- sqrt (Z.quot 50 2) ;; ret (Result_OkTag root)) [call_div_safe 50 2].
Proof.
  refine (@div_sqrt_is_sqrt_of_quotient 50 2 [] _ _).
  - discriminate.
  - intros [H _]. discriminate H.
Defined.



(** *** Further compositions *)

(** X22. Dispatching on a mapped result is dispatching on the original
    with the mapping folded into the success branch: for every result,
    in whatever state, [r.map(f).match(g, h)] and
    [r.match(g after f, h)] end the same way and leave the same program
    state. *)
Theorem match_after_map
    (T E W U R : Type)
    {MT : MoveConstructible T} {ME : MoveConstructible E}
    {MU : MoveConstructible U}
    (f : T -> M W U) (g : U -> M W R) (h : E -> M W R)
    (r : Result T E) (w : W) :
  (mapped <- with_local r (map f) ;; with_local mapped (match_ g h)) w =
  with_local r (match_ (fun t => u <- f t ;; g u) h) w.
Proof.
  destruct r as [d []]; destruct d; try reflexivity;
    unfold with_local; run_method; reflexivity.
Qed.

(** X23. [match] of the header variant with invalid-source checks runs
    the same branch on the same value as [match] of the full header,
    with the same effect on the instance and on the program state; it
    only drops what the branch returns. *)
Theorem checked_match_drops_result
    (T E W R : Type) {MT : MoveConstructible T} {ME : MoveConstructible E}
    (if_ok : T -> M W R) (if_err : E -> M W R)
    (r : Result T E) (w : W) :
  with_invalid_checks.match_ if_ok if_err (r, w) =
  (_ <- match_ if_ok if_err ;; ret tt) (r, w).
Proof.
  destruct r as [d []]; destruct d; try reflexivity;
    unfold with_invalid_checks.match_; run_method; reflexivity.
Qed.
